(** * evolv: the request-lifecycle controller of [FE/evolv-app/src/app.js]

    A shallow embedding of the React component [app]: its hook cells, the
    two asynchronous functions [rotateLoadingMessages] and [handleSubmit],
    the pure helper [getScoreColor] and the part of the rendered tree that
    depends on the cells.  Asynchrony is modelled by explicit state passing
    over a [World] that holds the cells together with what is pending in
    the host: timers, requests awaiting their response, and the rejections
    of promises nobody handles.  A call of a setter is an update of its
    cell, and the tree on screen is [render] of the cells. *)

From Stdlib Require Import ZArith Lia.
From stdpp Require Import base strings list gmap.

Local Open Scope string_scope.
Local Open Scope list_scope.

(** * Data model *)

(** An entry of [response.result]; the component reads [score],
    [verdict], [red_flags] and [alternative_plan] from it. *)
Record Assessment := mkAssessment {
  score : Z;
  verdict : string;
  red_flags : list string;
  alternative_plan : string
}.

(** The value [__jacSpawn] resolves with: an object with a [result]
    field, as the service boundary gives it.  [result] is [None] when the
    field is missing or null, which JavaScript treats as falsy; an array,
    empty or not, is truthy. *)
Module Response.
Record t := mk { result : option (list Assessment) }.
End Response.

(** A rejection cause or a thrown exception, by its description. *)
Definition Error := string.

(** The seven [useState] cells of [app]. *)
Record AppState := mkState {
  role : string;
  stack : string;
  techIdea : string;
  latencyReq : string;
  result : option Assessment;
  loading : bool;
  loadingText : string
}.

(** [useState] initial values, lines 4 to 10. *)
Definition initial : AppState :=
  {| role := "Solo Founder";
     stack := "";
     techIdea := "";
     latencyReq := "Real-time (<200ms)";
     result := None;
     loading := false;
     loadingText := "Analyzing Architecture..." |}.

(** The setters returned by [useState]. *)
Definition setRole (v : string) (s : AppState) : AppState :=
  mkState v (stack s) (techIdea s) (latencyReq s) (result s) (loading s) (loadingText s).
Definition setStack (v : string) (s : AppState) : AppState :=
  mkState (role s) v (techIdea s) (latencyReq s) (result s) (loading s) (loadingText s).
Definition setTechIdea (v : string) (s : AppState) : AppState :=
  mkState (role s) (stack s) v (latencyReq s) (result s) (loading s) (loadingText s).
Definition setLatencyReq (v : string) (s : AppState) : AppState :=
  mkState (role s) (stack s) (techIdea s) v (result s) (loading s) (loadingText s).
Definition setResult (v : option Assessment) (s : AppState) : AppState :=
  mkState (role s) (stack s) (techIdea s) (latencyReq s) v (loading s) (loadingText s).
Definition setLoading (v : bool) (s : AppState) : AppState :=
  mkState (role s) (stack s) (techIdea s) (latencyReq s) (result s) v (loadingText s).
Definition setLoadingText (v : string) (s : AppState) : AppState :=
  mkState (role s) (stack s) (techIdea s) (latencyReq s) (result s) (loading s) v.

(** * getScoreColor *)

Definition success_color : string := "#10B981".
Definition warning_color : string := "#F59E0B".
Definition danger_color : string := "#EF4444".

Definition getScoreColor (score : Z) : string :=
  if (score >=? 7)%Z then "#10B981"
  else if (score >=? 5)%Z then "#F59E0B"
  else "#EF4444".

(** * The rendered tree

    The part of the tree returned by [app] that depends on the cells: the
    submit button, the loading panel and the result panel. *)

(** JavaScript's [!s] on a string: only the empty string is falsy. *)
Definition not_string (s : string) : bool := bool_decide (s = "").

(** What evaluating an expression gives: a value, or an exception. *)
Inductive Outcome (A : Type) := Value (a : A) | Raised (e : Error).
Arguments Value {A} a.
Arguments Raised {A} e.

Definition ReferenceError_len : Error := "ReferenceError: len is not defined".

(** [len] is called at lines 25 and 48, but the file neither defines nor
    imports it, and JavaScript has no global of that name: evaluating the
    call raises a ReferenceError, whatever the argument. *)
Definition len {A} (l : list A) : Outcome Z := Raised ReferenceError_len.

(** The result panel: what it shows, the two entries of its [style] that
    depend on the result, and the outcome of [len(result.red_flags) > 0],
    the condition of its red-flags block. *)
Record ResultPanel := mkPanel {
  shown : Assessment;
  background : string;
  border : string;
  red_flags_shown : Outcome bool
}.

Record View := mkView {
  button_disabled : bool;
  button_label : string;
  loading_panel : option string;
  result_panel : option ResultPanel
}.

Definition render (s : AppState) : View :=
  {| button_disabled := loading s || not_string (stack s) || not_string (techIdea s);
     button_label := if loading s then "Consulting..." else "Get Assessment";
     loading_panel := if loading s then Some (loadingText s) else None;
     result_panel :=
       match result s with
       | Some r =>
           if negb (loading s) then
             Some {| shown := r;
                     background := if (score r <? 5)%Z then getScoreColor (score r) else "#F3F4F6";
                     border := "3px solid " +:+ getScoreColor (score r);
                     red_flags_shown :=
                       match len (red_flags r) with
                       | Value n => Value (bool_decide (n > 0)%Z)
                       | Raised e => Raised e
                       end |}
           else None
       | None => None
       end |}.

(** ** The published variant

    The spec's [SubmissionState], and the variant a view stands for.  The
    tree has a loading panel and a result panel and nothing for a failure,
    so no view stands for [Failed]. *)
Inductive SubmissionState :=
  | Idle
  | Loading (currentMessageIndex : nat)
  | Succeeded (r : Assessment)
  | Failed (reason : string).

Definition messages : list string :=
  ["Analyzing Architecture..."; "Calculating Latency Risks...";
   "Evaluating Tech Stack..."; "Checking for Over-Engineering..."].

(** Position of the first entry equal to [t]; [length l] when there is none. *)
Fixpoint index_of (t : string) (l : list string) : nat :=
  match l with
  | [] => 0
  | m :: l' => if bool_decide (m = t) then 0 else S (index_of t l')
  end.

Definition variant (v : View) : SubmissionState :=
  match loading_panel v, result_panel v with
  | Some text, _ => Loading (index_of text messages)
  | None, Some p => Succeeded (shown p)
  | None, None => Idle
  end.

Definition published (s : AppState) : SubmissionState := variant (render s).

(** * The host

    What is pending outside the component while its asynchronous functions
    are suspended. *)

(** A [setTimeout(resolve, delay)] that has not elapsed, with what the
    [for] loop of [rotateLoadingMessages] still has to visit once the
    awaited promise resolves. *)
Record Timer := mkTimer { delay : Z; rest : list string }.

(** The three arguments of a [__jacSpawn] call; the third is a JavaScript
    object used as a map from field names to strings. *)
Record Request := mkRequest {
  walker : string;
  node : string;
  fields : gmap string string
}.

Record World := mkWorld {
  ui : AppState;
  timers : list Timer;          (* oldest first *)
  outbox : list Request;        (* every request sent, oldest first *)
  awaiting : list nat;          (* requests a suspended [handleSubmit] awaits *)
  rejections : list Error;      (* rejected promises nobody handles, newest first *)
  console : list string         (* arguments of the calls of [print], newest first *)
}.

Definition boot : World := mkWorld initial [] [] [] [] [].

Definition update (f : AppState → AppState) (w : World) : World :=
  mkWorld (f (ui w)) (timers w) (outbox w) (awaiting w) (rejections w) (console w).
Definition schedule (t : Timer) (w : World) : World :=
  mkWorld (ui w) (timers w ++ [t]) (outbox w) (awaiting w) (rejections w) (console w).
Definition unhandled (e : Error) (w : World) : World :=
  mkWorld (ui w) (timers w) (outbox w) (awaiting w) (e :: rejections w) (console w).

(** [print] is not defined in the file either; a browser binds the name
    to [window.print], which has no access to the cells.  The world keeps
    the argument of each call, so that a call can be told from none. *)
Definition print (line : string) (w : World) : World :=
  mkWorld (ui w) (timers w) (outbox w) (awaiting w) (rejections w) (line :: console w).

(** Modelled from the spec: [__jacSpawn] of [@jac-client/utils], imported
    but not part of the sources; it sends one request to the assessment
    service and returns a promise that settles once, with the response or
    with a failure.  A request is identified by its position in [outbox]. *)
Definition __jacSpawn (walker node : string) (fields : gmap string string) (w : World) : World :=
  mkWorld (ui w) (timers w) (outbox w ++ [mkRequest walker node fields])
          (awaiting w ++ [length (outbox w)]) (rejections w) (console w).

(** The promise of request [id] settles: nobody awaits it any longer. *)
Definition settled (id : nat) (w : World) : World :=
  mkWorld (ui w) (timers w) (outbox w) (filter (λ i, i ≠ id) (awaiting w))
          (rejections w) (console w).

(** * The asynchronous functions *)

(** How an expression evaluates: to a value, or abruptly with an
    exception. *)
Inductive Completion := Normal | Throw (e : Error).

(** The two ways JavaScript applies a constructor function: [F(args)] and
    [new F(args)]. *)
Inductive Application := Call | New.

(** The built-in [Promise] applied to an executor.  Called without [new]
    it throws before running the executor (ECMAScript, Promise constructor,
    step 1: a TypeError when NewTarget is undefined); constructed, it runs
    the executor and yields a pending promise. *)
Definition Promise (how : Application) : Completion :=
  match how with
  | Call => Throw "TypeError: Promise constructor cannot be invoked without 'new'"
  | New => Normal
  end.

Section Controller.

(** How the loop of [rotateLoadingMessages] applies [Promise].  The
    source writes [await Promise(resolve => ...)], which is [Call]; the
    section keeps the application as a variable so that the loop can also
    be read with [New]. *)
Variable how : Application.

(** The [for (const msg of messages)] loop, entered with [msgs] left to
    visit.  An iteration sets the text and evaluates the operand of
    [await]: when that throws, the asynchronous function ends with a
    rejected promise, which no caller handles; otherwise the executor has
    run [setTimeout(resolve, 800)] and the function is suspended until the
    timer elapses. *)
Definition rotate (msgs : list string) (w : World) : World :=
  match msgs with
  | [] => w
  | msg :: rest =>
      let w := update (setLoadingText msg) w in
      match Promise how with
      | Throw e => unhandled e w
      | Normal => schedule (mkTimer 800 rest) w
      end
  end.

Definition rotateLoadingMessages (w : World) : World := rotate messages w.

(** [handleSubmit] up to its [await]: the rotation is started and not
    awaited, then the request is sent with the values of the cells the
    closure was rendered with. *)
Definition handleSubmit (w : World) : World :=
  let inputs := ui w in
  let w := update (setLoading true) w in
  let w := update (setResult None) w in
  let w := rotateLoadingMessages w in
  __jacSpawn "FeasibilityConsultant" ""
    (<["role" := role inputs]>
       (<["stack" := stack inputs]>
          (<["tech_idea" := techIdea inputs]>
             (<["latency_req" := latencyReq inputs]> ∅)))) w.

(** [handleSubmit] resumed with the response.  A missing [result] is
    falsy and ends the condition of the [if]; an array, empty or not, is
    truthy, so [len(response.result)] is evaluated next: when that raises,
    nothing catches it, the statements below it do not run and the promise
    [handleSubmit] returned is rejected.  [response.result[0]] is the first
    entry of the sequence. *)
Definition handleSubmit_resumed (response : Response.t) (w : World) : World :=
  match Response.result response with
  | Some entries =>
      match len entries with
      | Raised e => unhandled e w
      | Value n =>
          let w :=
            if bool_decide (n > 0)%Z then
              let assessment := entries !! 0%nat in
              let w := update (setResult assessment) w in
              print "Here are results" w
            else w in
          update (setLoading false) w
      end
  | None => update (setLoading false) w
  end.

(** [handleSubmit] resumed with a failure: the [await] throws, nothing
    catches it, and the promise [handleSubmit] returned is rejected with
    the cause. *)
Definition handleSubmit_thrown (cause : Error) (w : World) : World :=
  unhandled cause w.

(** ** Events *)

Inductive Event :=
  | ChangeRole (v : string)
  | ChangeStack (v : string)
  | ChangeTechIdea (v : string)
  | ChangeLatencyReq (v : string)
  | Click                                  (* on the submit button *)
  | Invoke                                 (* [handleSubmit] called directly *)
  | Resolve (id : nat) (response : Response.t)
  | Reject (id : nat) (cause : Error)
  | Elapse.                                (* the oldest timer elapses *)

Definition step (e : Event) (w : World) : World :=
  match e with
  | ChangeRole v => update (setRole v) w
  | ChangeStack v => update (setStack v) w
  | ChangeTechIdea v => update (setTechIdea v) w
  | ChangeLatencyReq v => update (setLatencyReq v) w
  | Click => if button_disabled (render (ui w)) then w else handleSubmit w
  | Invoke => handleSubmit w
  | Resolve id response =>
      if bool_decide (id ∈ awaiting w)
      then handleSubmit_resumed response (settled id w) else w
  | Reject id cause =>
      if bool_decide (id ∈ awaiting w)
      then handleSubmit_thrown cause (settled id w) else w
  | Elapse =>
      match timers w with
      | [] => w
      | t :: pending =>
          rotate (rest t)
            (mkWorld (ui w) pending (outbox w) (awaiting w) (rejections w) (console w))
      end
  end.

(** The world after a sequence of events, the first event first. *)
Definition run (trace : list Event) (w : World) : World :=
  foldl (λ w e, step e w) w trace.

End Controller.

(** Events a user and the host produce through the rendered tree: every
    one but the direct invocation of [handleSubmit]. *)
Definition through_ui (e : Event) : bool :=
  match e with Invoke => false | _ => true end.

(** The entries of a response, none when [result] is missing. *)
Definition entries_of (response : Response.t) : list Assessment :=
  default [] (Response.result response).

(** * Predicates and concrete inputs used below *)

(** While a request is awaited the view is loading with no result, and
    the awaited request is the last one sent. *)
Definition single_flight (w : World) : Prop :=
  (length (awaiting w) ≤ 1)%nat ∧
  ∀ id, id ∈ awaiting w →
    loading (ui w) = true ∧ result (ui w) = None ∧ S id = length (outbox w).

(** As the source applies [Promise], the first message is the only one
    ever set and no timer is ever pending. *)
Definition stuck_at_first (w : World) : Prop :=
  loadingText (ui w) = "Analyzing Architecture..." ∧ timers w = [].

Definition overkill : Assessment :=
  mkAssessment 2 "Overkill" ["Unjustified orchestration complexity"]
    "Use a scheduled function".

Definition fill_form : list Event :=
  [ChangeStack "Node, Postgres";
   ChangeTechIdea "Add a Kubernetes cluster for a single cron job"].

(** * The rest of the tree: options and styles *)

(** The [value]s of the options of the two [select] elements. *)
Definition role_options : list string :=
  ["Solo Founder"; "Junior Developer"; "Senior Engineer"; "Enterprise Team"].

Definition latency_options : list string :=
  ["Real-time (<200ms)"; "Fast (<1s)"; "Moderate (<5s)"; "Async (No Constraint)"].

(** The two entries of the button's [style] that depend on the cells. *)
Record ButtonStyle := mkButtonStyle {
  button_background : string;
  button_cursor : string
}.

Definition button_style (s : AppState) : ButtonStyle :=
  {| button_background :=
       if loading s || not_string (stack s) || not_string (techIdea s)
       then "#9CA3AF" else "linear-gradient(135deg, #667eea 0%, #764ba2 100%)";
     button_cursor :=
       if loading s || not_string (stack s) || not_string (techIdea s)
       then "not-allowed" else "pointer" |}.

(** Colours inside the result panel: the panel itself, the score, which
    stands on a white badge, and the verdict, which stands on the panel. *)
Definition panel_background (r : Assessment) : string :=
  if (score r <? 5)%Z then getScoreColor (score r) else "#F3F4F6".

Definition score_color (r : Assessment) : string := getScoreColor (score r).

Definition verdict_color (r : Assessment) : string :=
  if (score r <? 5)%Z then "white" else getScoreColor (score r).

(** ** More predicates on events and worlds *)

(** The four [onChange] handlers. *)
Definition edits (e : Event) : bool :=
  match e with
  | ChangeRole _ | ChangeStack _ | ChangeTechIdea _ | ChangeLatencyReq _ => true
  | _ => false
  end.

(** A [select] hands its [onChange] the value of one of its options. *)
Definition from_selects (e : Event) : bool :=
  match e with
  | ChangeRole v => bool_decide (v ∈ role_options)
  | ChangeLatencyReq v => bool_decide (v ∈ latency_options)
  | _ => true
  end.

(** The four cells the form edits. *)
Definition inputs (s : AppState) : string * string * string * string :=
  (role s, stack s, techIdea s, latencyReq s).

(** The text on screen is one of the messages, and so is all a pending
    timer will still show. *)
Definition shows_a_message (w : World) : Prop :=
  loadingText (ui w) ∈ messages ∧
  ∀ t, t ∈ timers w → delay t = 800%Z ∧ rest t ⊆ messages.

(** Loading, with nothing awaited that could end it. *)
Definition blocked (w : World) : Prop :=
  loading (ui w) = true ∧ result (ui w) = None ∧ awaiting w = [].

(** The cells hold option values, and so does every request sent. *)
Definition enumerated (w : World) : Prop :=
  role (ui w) ∈ role_options ∧
  latencyReq (ui w) ∈ latency_options ∧
  ∀ request, request ∈ outbox w →
    ∃ r l, fields request !! "role" = Some r ∧ r ∈ role_options ∧
           fields request !! "latency_req" = Some l ∧ l ∈ latency_options.

Definition TypeError_without_new : Error :=
  "TypeError: Promise constructor cannot be invoked without 'new'".

Ltac by_cases_of_rotate :=
  match goal with
  | msgs : list string, how : Application |- _ =>
      destruct msgs; destruct how; reflexivity
  end.

(** * What the rotation and the settlements touch *)

Lemma rotate_awaiting how msgs w : awaiting (rotate how msgs w) = awaiting w.
Proof. by_cases_of_rotate. Qed.

Lemma rotate_outbox how msgs w : outbox (rotate how msgs w) = outbox w.
Proof. by_cases_of_rotate. Qed.

Lemma rotate_loading how msgs w : loading (ui (rotate how msgs w)) = loading (ui w).
Proof. by_cases_of_rotate. Qed.

Lemma rotate_result how msgs w : result (ui (rotate how msgs w)) = result (ui w).
Proof. by_cases_of_rotate. Qed.

(** Whatever the application, the rotation only ever adds timers. *)
Lemma rotate_timers how msgs w : ∃ new, timers (rotate how msgs w) = timers w ++ new.
Proof.
  destruct msgs as [|m rest]; [exists []; simpl; by rewrite app_nil_r|].
  destruct how; simpl.
  - exists []. by rewrite app_nil_r.
  - by eexists.
Qed.

Lemma handleSubmit_ui how w :
  loading (ui (handleSubmit how w)) = true ∧
  result (ui (handleSubmit how w)) = None ∧
  loadingText (ui (handleSubmit how w)) = "Analyzing Architecture...".
Proof. destruct how; repeat split. Qed.

Lemma handleSubmit_awaiting how w :
  awaiting (handleSubmit how w) = awaiting w ++ [length (outbox w)].
Proof. destruct how; reflexivity. Qed.

Lemma handleSubmit_resumed_array response entries w :
  Response.result response = Some entries →
  handleSubmit_resumed response w = unhandled ReferenceError_len w.
Proof. unfold handleSubmit_resumed. by intros ->. Qed.

Lemma handleSubmit_resumed_missing response w :
  Response.result response = None →
  handleSubmit_resumed response w = update (setLoading false) w.
Proof. unfold handleSubmit_resumed. by intros ->. Qed.

Lemma handleSubmit_resumed_result response w :
  result (ui (handleSubmit_resumed response w)) = result (ui w).
Proof.
  unfold handleSubmit_resumed.
  by destruct (Response.result response) as [entries|].
Qed.

Lemma settled_ui id w : ui (settled id w) = ui w.
Proof. reflexivity. Qed.

Lemma not_awaiting_settled id w : id ∉ awaiting (settled id w).
Proof.
  simpl. intros H. apply list_elem_of_filter in H as [H _]. by apply H.
Qed.

Lemma published_setLoading_false s :
  result s = None → published (setLoading false s) = Idle.
Proof. unfold published, variant, render. simpl. by intros ->. Qed.

(** Without a result no view is a success. *)
Lemma published_not_Succeeded s r : result s = None → published s ≠ Succeeded r.
Proof.
  unfold published, variant, render; simpl. intros ->.
  by destruct (loading s).
Qed.

(** No view stands for a failure. *)
Lemma published_not_Failed s reason : published s ≠ Failed reason.
Proof.
  unfold published, variant, render; simpl.
  destruct (loading s); simpl; [done|].
  destruct (result s); done.
Qed.

Lemma handleSubmit_resumed_awaiting response w :
  awaiting (handleSubmit_resumed response w) = awaiting w.
Proof.
  unfold handleSubmit_resumed.
  by destruct (Response.result response) as [entries|].
Qed.

Lemma handleSubmit_resumed_timers response w :
  timers (handleSubmit_resumed response w) = timers w.
Proof.
  unfold handleSubmit_resumed.
  by destruct (Response.result response) as [entries|].
Qed.

(** * Submitting *)

(** C8: for every valid inputs value, invoking submit (through the enabled
    button or directly) puts the state into Loading with message index 0
    before anything settles: the loading panel shows the first rotation
    message and the previous result is discarded. *)
Theorem submit_publishes_Loading_0 (w : World) :
  stack (ui w) ≠ "" → techIdea (ui w) ≠ "" →
  let w' := handleSubmit Call w in
  (loading (ui w) = false → step Call Click w = w') ∧
  step Call Invoke w = w' ∧
  published (ui w') = Loading 0 ∧
  loading_panel (render (ui w')) = messages !! 0%nat ∧
  result (ui w') = None ∧
  result_panel (render (ui w')) = None.
Proof.
  intros Hstack Hidea; simpl.
  split; [|by repeat split].
  intros Hloading. unfold render, not_string. simpl. rewrite Hloading.
  by rewrite !bool_decide_eq_false_2.
Qed.

Lemma submit_publishes_Loading_0_witness :
  let w := update (setTechIdea "Add a Kubernetes cluster for a single cron job")
             (update (setStack "Node, Postgres") boot) in
  published (ui (step Call Click w)) = Loading 0 ∧
  published (ui (step Call Invoke w)) = Loading 0.
Proof.
  cbv zeta.
  pose proof (submit_publishes_Loading_0
    (update (setTechIdea "Add a Kubernetes cluster for a single cron job")
       (update (setStack "Node, Postgres") boot))
    ltac:(vm_compute; discriminate) ltac:(vm_compute; discriminate)) as H.
  cbv zeta in H. destruct H as (Hclick & Hinvoke & Hpub & _).
  split.
  - rewrite (Hclick eq_refl). exact Hpub.
  - rewrite Hinvoke. exact Hpub.
Defined.

(** C9: for every submission, the request sent to the assessment service
    carries exactly the four fields role, stack, tech_idea and latency_req,
    holding the cells role, stack, techIdea and latencyReq, and the one
    response it is settled with is awaited once. *)
Theorem handleSubmit_sends_four_fields (w : World) :
  let w' := handleSubmit Call w in
  let id := length (outbox w) in
  ∃ request,
    outbox w' = outbox w ++ [request] ∧
    awaiting w' = awaiting w ++ [id] ∧
    walker request = "FeasibilityConsultant" ∧
    dom (fields request) =
      ({["role"]} ∪ {["stack"]} ∪ {["tech_idea"]} ∪ {["latency_req"]} : gset string) ∧
    fields request !! "role" = Some (role (ui w)) ∧
    fields request !! "stack" = Some (stack (ui w)) ∧
    fields request !! "tech_idea" = Some (techIdea (ui w)) ∧
    fields request !! "latency_req" = Some (latencyReq (ui w)) ∧
    (∀ response, id ∉ awaiting (step Call (Resolve id response) w')) ∧
    (∀ cause, id ∉ awaiting (step Call (Reject id cause) w')).
Proof.
  cbv zeta. eexists. split; [reflexivity|]. split; [reflexivity|].
  split; [reflexivity|]. cbn [fields].
  split; [rewrite !dom_insert_L, dom_empty_L; set_solver|].
  do 4 (split; [by simplify_map_eq|]).
  assert (length (outbox w) ∈ awaiting (handleSubmit Call w)) as Hin.
  { rewrite handleSubmit_awaiting. set_solver. }
  split.
  - intros response. cbn [step]. rewrite bool_decide_eq_true_2 by exact Hin.
    rewrite handleSubmit_resumed_awaiting. apply not_awaiting_settled.
  - intros cause. cbn [step]. rewrite bool_decide_eq_true_2 by exact Hin.
    apply not_awaiting_settled.
Qed.

(** C10: [handleSubmit] is written to end with loading false whenever the
    request resolves, and it does when the response has no [result].  For
    every array, empty or not, the call of [len] raises first: no cell
    changes, the ReferenceError is left unhandled, and right after a submit
    loading is still true and the view still Loading. *)
Theorem array_response_leaves_loading
    (w : World) (id : nat) (response : Response.t) (entries : list Assessment) :
  id ∈ awaiting w →
  Response.result response = Some entries →
  ui (step Call (Resolve id response) w) = ui w ∧
  rejections (step Call (Resolve id response) w) = ReferenceError_len :: rejections w ∧
  let w' := step Call (Resolve (length (outbox w)) response) (handleSubmit Call w) in
  loading (ui w') = true ∧ published (ui w') = Loading 0.
Proof.
  intros Hin Harray. cbn [step]. rewrite bool_decide_eq_true_2 by exact Hin.
  rewrite (handleSubmit_resumed_array response entries) by exact Harray.
  split; [reflexivity|]. split; [reflexivity|].
  cbv zeta. cbn [step].
  rewrite bool_decide_eq_true_2 by (rewrite handleSubmit_awaiting; set_solver).
  rewrite (handleSubmit_resumed_array response entries) by exact Harray.
  by split.
Qed.

Lemma array_response_leaves_loading_witness :
  loading (ui (step Call (Resolve 0 (Response.mk (Some []))) (handleSubmit Call boot))) = true.
Proof.
  pose proof (array_response_leaves_loading (handleSubmit Call boot) 0
                (Response.mk (Some [])) [] ltac:(vm_compute; left) eq_refl) as [Hui _].
  rewrite Hui. reflexivity.
Defined.

(** A response without [result] does end with loading false. *)
Lemma missing_result_clears_loading how w id response :
  id ∈ awaiting w → Response.result response = None →
  ui (step how (Resolve id response) w) = setLoading false (ui w).
Proof.
  intros Hin Hnone. cbn [step]. rewrite bool_decide_eq_true_2 by exact Hin.
  by rewrite handleSubmit_resumed_missing.
Qed.

(** * One submission at a time through the button *)

Lemma single_flight_boot : single_flight boot.
Proof. split; [simpl; lia|]. intros id H. by apply elem_of_nil in H. Qed.

Lemma single_flight_idle w :
  single_flight w → loading (ui w) = false → awaiting w = [].
Proof.
  intros [_ H] Hidle. destruct (awaiting w) as [|id l] eqn:E; [done|].
  destruct (H id) as (Hl & _); [left|]. congruence.
Qed.

Lemma single_flight_settled id w :
  single_flight w → id ∈ awaiting w → awaiting (settled id w) = [].
Proof.
  intros [Hlen _] Hin. simpl.
  destruct (awaiting w) as [|i [|j l]]; simpl in *; [by apply elem_of_nil in Hin| |lia].
  apply list_elem_of_singleton in Hin as ->.
  rewrite filter_cons_False; [done|]. by intros H.
Qed.

Lemma single_flight_update f w :
  (∀ s, loading (f s) = loading s) → (∀ s, result (f s) = result s) →
  single_flight w → single_flight (update f w).
Proof.
  intros Hl Hr [Hlen H]. split; [exact Hlen|].
  intros id Hin. simpl. rewrite Hl, Hr. by apply H.
Qed.

Lemma single_flight_none w : awaiting w = [] → single_flight w.
Proof.
  intros E. split; rewrite E; [simpl; lia|].
  intros id H. by apply elem_of_nil in H.
Qed.

Lemma single_flight_step how e w :
  through_ui e = true → single_flight w → single_flight (step how e w).
Proof.
  intros Hui Hw. destruct e; try discriminate Hui; cbn [step].
  - by apply single_flight_update.
  - by apply single_flight_update.
  - by apply single_flight_update.
  - by apply single_flight_update.
  - destruct (button_disabled (render (ui w))) eqn:Hb; [exact Hw|].
    assert (loading (ui w) = false) as Hidle.
    { unfold render in Hb; cbn [button_disabled] in Hb.
      destruct (loading (ui w)); [discriminate Hb | reflexivity]. }
    pose proof (single_flight_idle w Hw Hidle) as Hnone.
    split; rewrite handleSubmit_awaiting, Hnone; [simpl; lia|].
    intros id Hin. apply list_elem_of_singleton in Hin as ->.
    destruct (handleSubmit_ui how w) as (Hl & Hr & _).
    repeat split; [exact Hl | exact Hr |].
    destruct how; simpl; rewrite length_app; simpl; lia.
  - case_bool_decide as Hin; [|exact Hw].
    apply single_flight_none. rewrite handleSubmit_resumed_awaiting.
    by apply single_flight_settled.
  - case_bool_decide as Hin; [|exact Hw].
    apply single_flight_none. by apply single_flight_settled.
  - destruct (timers w) as [|t pending]; [exact Hw|].
    destruct Hw as [Hlen H].
    split; rewrite rotate_awaiting; [exact Hlen|].
    intros id Hin. rewrite rotate_loading, rotate_result, rotate_outbox.
    by apply H.
Qed.

Lemma single_flight_run how trace w :
  forallb through_ui trace = true → single_flight w → single_flight (run how trace w).
Proof.
  revert w. induction trace as [|e trace IH]; intros w Hui Hw; [exact Hw|].
  simpl in Hui. apply andb_prop in Hui as [He Htrace].
  apply (IH (step how e w) Htrace). by apply single_flight_step.
Qed.

(** * Superseding a submission *)

(** C1, as stated, fails: [handleSubmit] called twice has two requests in
    flight, and the response to the first one, here one without [result],
    arriving while the second is still awaited, takes the published state
    from Loading to Idle. *)
Lemma stale_response_overwrites_state :
  let issued :=
    run Call (fill_form ++ [Invoke; ChangeTechIdea "Add a message queue"; Invoke]) boot in
  let after := step Call (Resolve 0 (Response.mk None)) issued in
  awaiting issued = [0; 1]%nat ∧
  published (ui issued) = Loading 0 ∧
  published (ui after) = Idle ∧
  awaiting after = [1]%nat.
Proof. vm_compute. by repeat split. Qed.

(** C1, amended: through the rendered tree at most one request is awaited
    at any time, it is the last one sent, and while it is awaited the view
    is loading and a click on the button changes nothing; so no submission
    can be issued through the button before the response to the previous
    one has arrived. *)
Theorem button_allows_one_submission (how : Application) (trace : list Event) :
  forallb through_ui trace = true →
  let w := run how trace boot in
  (length (awaiting w) ≤ 1)%nat ∧
  ∀ id, id ∈ awaiting w →
    S id = length (outbox w) ∧
    loading_panel (render (ui w)) = Some (loadingText (ui w)) ∧
    button_disabled (render (ui w)) = true ∧
    step how Click w = w.
Proof.
  intros Hui w.
  destruct (single_flight_run how trace boot Hui single_flight_boot) as [Hlen H].
  split; [exact Hlen|].
  intros id Hin. destruct (H id Hin) as (Hl & _ & Hlast). fold w in Hl, Hlast.
  assert (button_disabled (render (ui w)) = true) as Hb.
  { unfold render; cbn [button_disabled]. by rewrite Hl. }
  repeat split; [exact Hlast | | exact Hb |].
  - unfold render; cbn [loading_panel]. by rewrite Hl.
  - cbn [step]. by rewrite Hb.
Qed.

Lemma button_allows_one_submission_witness :
  let w := run Call (fill_form ++ [Click]) boot in
  awaiting w = [0%nat] ∧ step Call Click w = w.
Proof.
  cbv zeta. split; [reflexivity|].
  pose proof (button_allows_one_submission Call (fill_form ++ [Click]) eq_refl) as H.
  cbv zeta in H. destruct H as [_ H].
  apply (H 0%nat). vm_compute. left.
Defined.

(** * Settlement *)

(** C2, as stated, fails: after a response with an empty result sequence
    the published state is not Failed with reason "empty response"; the
    view is still Loading. *)
Lemma empty_response_is_not_Failed :
  let w := run Call (fill_form ++ [Click; Resolve 0 (Response.mk (Some []))]) boot in
  published (ui w) = Loading 0 ∧ published (ui w) ≠ Failed "empty response".
Proof. vm_compute. split; [reflexivity | discriminate]. Qed.

(** C2, amended: for every response without entries to a submission made
    through the button, the submission ends with no result; it never ends
    in Succeeded, and it never ends in Failed, a state the component does
    not have.  With [result] missing it ends in the idle appearance of the
    form. *)
Theorem empty_response_never_Succeeded_nor_Failed
    (how : Application) (trace : list Event) (id : nat) (response : Response.t) :
  forallb through_ui trace = true →
  id ∈ awaiting (run how trace boot) →
  entries_of response = [] →
  let w' := step how (Resolve id response) (run how trace boot) in
  result (ui w') = None ∧
  (∀ r, published (ui w') ≠ Succeeded r) ∧
  (∀ reason, published (ui w') ≠ Failed reason) ∧
  (Response.result response = None → published (ui w') = Idle).
Proof.
  intros Hui Hin Hempty.
  destruct (single_flight_run how trace boot Hui single_flight_boot) as [_ H].
  destruct (H id Hin) as (_ & Hr & _).
  cbv zeta.
  assert (result (ui (step how (Resolve id response) (run how trace boot))) = None) as Hnone.
  { cbn [step]. rewrite bool_decide_eq_true_2 by exact Hin.
    by rewrite handleSubmit_resumed_result. }
  split; [exact Hnone|]. split; [|split].
  - intros r. by apply published_not_Succeeded.
  - intros reason. apply published_not_Failed.
  - intros Hmissing. rewrite (missing_result_clears_loading how _ id response Hin Hmissing).
    by apply published_setLoading_false.
Qed.

Lemma empty_response_never_Succeeded_nor_Failed_witness :
  result (ui (step Call (Resolve 0 (Response.mk (Some [])))
                (run Call (fill_form ++ [Click]) boot))) = None.
Proof.
  refine (proj1 (empty_response_never_Succeeded_nor_Failed Call (fill_form ++ [Click]) 0
                   (Response.mk (Some [])) eq_refl _ eq_refl)).
  vm_compute. left.
Defined.

(** C5, as stated, fails: after the request is rejected the published
    state is still Loading, not Failed with the cause, and the cause has
    left [handleSubmit] as the rejection of the promise it returned. *)
Lemma rejected_request_stays_Loading :
  let w := run Call (fill_form ++ [Click; Reject 0 "timeout"]) boot in
  published (ui w) = Loading 0 ∧
  published (ui w) ≠ Failed "timeout" ∧
  head (rejections w) = Some "timeout".
Proof. vm_compute. repeat split; discriminate. Qed.

(** C5, amended: for every settlement of the request that is an error,
    [handleSubmit] ends at its [await]: no cell changes, the view stays
    Loading and never becomes Failed, and the cause is retained only as the
    rejection of the promise [handleSubmit] returned, which nothing in the
    component handles. *)
Theorem rejected_request_escapes
    (how : Application) (trace : list Event) (id : nat) (cause : Error) :
  forallb through_ui trace = true →
  id ∈ awaiting (run how trace boot) →
  let w := run how trace boot in
  let w' := step how (Reject id cause) w in
  ui w' = ui w ∧
  published (ui w') = Loading (index_of (loadingText (ui w)) messages) ∧
  (∀ reason, published (ui w') ≠ Failed reason) ∧
  rejections w' = cause :: rejections w.
Proof.
  intros Hui Hin.
  destruct (single_flight_run how trace boot Hui single_flight_boot) as [_ H].
  destruct (H id Hin) as (Hl & _ & _).
  cbv zeta. cbn [step]. rewrite bool_decide_eq_true_2 by exact Hin.
  unfold handleSubmit_thrown. cbn [unhandled ui rejections]. rewrite settled_ui.
  repeat split.
  - unfold published, variant, render. cbn [loading_panel]. by rewrite Hl.
  - intros reason. apply published_not_Failed.
Qed.

Lemma rejected_request_escapes_witness :
  rejections (step Call (Reject 0 "timeout") (run Call (fill_form ++ [Click]) boot))
  = "timeout" :: rejections (run Call (fill_form ++ [Click]) boot).
Proof.
  pose proof (rejected_request_escapes Call (fill_form ++ [Click]) 0 "timeout" eq_refl) as H.
  cbv zeta in H. apply H. vm_compute. left.
Defined.

(** * Validation *)

(** C3, as stated, fails: [handleSubmit] does not look at the inputs, so
    invoked with [stack] and [techIdea] empty it sets Loading and sends a
    request; and the button compares untrimmed text, so a [stack] of one
    blank leaves it enabled. *)
Lemma handleSubmit_does_not_validate :
  let w' := step Call Invoke boot in
  let blank := update (setTechIdea "Add a message queue") (update (setStack " ") boot) in
  stack (ui boot) = "" ∧ techIdea (ui boot) = "" ∧
  published (ui boot) = Idle ∧
  published (ui w') = Loading 0 ∧
  length (outbox w') = 1%nat ∧
  published (ui (step Call Click blank)) = Loading 0.
Proof. vm_compute. by repeat split. Qed.

(** C3, amended: for every inputs value in which [stack] or [techIdea] is
    the empty string, without trimming, a click on the submit button leaves
    the whole state as it is: nothing is thrown, loading is not set and no
    request is sent. *)
Theorem disabled_button_ignores_click (how : Application) (w : World) :
  stack (ui w) = "" ∨ techIdea (ui w) = "" →
  button_disabled (render (ui w)) = true ∧ step how Click w = w.
Proof.
  intros Hempty.
  assert (button_disabled (render (ui w)) = true) as Hb.
  { unfold render, not_string; cbn [button_disabled].
    destruct Hempty as [H | H]; rewrite (bool_decide_eq_true_2 _ H).
    - by rewrite orb_true_r.
    - by rewrite orb_true_r. }
  split; [exact Hb|]. cbn [step]. by rewrite Hb.
Qed.

Lemma disabled_button_ignores_click_witness : step Call Click boot = boot.
Proof.
  refine (proj2 (disabled_button_ignores_click Call boot _)).
  left. reflexivity.
Defined.

(** The button is enabled exactly when nothing is loading and both texts
    are non-empty; a click then runs [handleSubmit]. *)
Lemma enabled_button_submits how w :
  stack (ui w) ≠ "" → techIdea (ui w) ≠ "" → loading (ui w) = false →
  step how Click w = handleSubmit how w.
Proof.
  intros Hs Hi Hl. cbn [step]. unfold render, not_string; cbn [button_disabled].
  by rewrite Hl, !bool_decide_eq_false_2.
Qed.

(** * The rotation *)

(** The two panels exclude each other in every state; and whatever the
    application of [Promise], a settlement leaves the pending timers as
    they are, and only elapsing removes one. *)
Lemma panels_exclude_each_other (how : Application) (w : World) :
  ¬ (is_Some (loading_panel (render (ui w))) ∧ is_Some (result_panel (render (ui w)))) ∧
  (∀ id response, timers (step how (Resolve id response) w) = timers w) ∧
  (∀ id cause, timers (step how (Reject id cause) w) = timers w) ∧
  (∀ e, e ≠ Elapse → ∃ new, timers (step how e w) = timers w ++ new).
Proof.
  split; [|split; [|split]].
  - unfold render; cbn [loading_panel result_panel].
    destruct (loading (ui w)); simpl.
    + intros [_ [p Hp]]. destruct (result (ui w)); discriminate Hp.
    + intros [[t Ht] _]. discriminate Ht.
  - intros id response. cbn [step]. case_bool_decide; [|reflexivity].
    by rewrite handleSubmit_resumed_timers.
  - intros id cause. cbn [step]. by case_bool_decide.
  - intros e He.
    assert (∃ new, timers (handleSubmit how w) = timers w ++ new) as Hsubmit.
    { unfold handleSubmit, rotateLoadingMessages.
      destruct (rotate_timers how messages
                  (update (setResult None) (update (setLoading true) w))) as [new Hnew].
      exists new. exact Hnew. }
    destruct e; cbn [step]; try exact Hsubmit.
    + exists []. by rewrite app_nil_r.
    + exists []. by rewrite app_nil_r.
    + exists []. by rewrite app_nil_r.
    + exists []. by rewrite app_nil_r.
    + destruct (button_disabled (render (ui w))); [|exact Hsubmit].
      exists []. by rewrite app_nil_r.
    + case_bool_decide; exists []; rewrite app_nil_r; [|reflexivity].
      by rewrite handleSubmit_resumed_timers.
    + case_bool_decide; exists []; by rewrite app_nil_r.
    + by destruct He.
Qed.

Lemma handleSubmit_resumed_text response w :
  loadingText (ui (handleSubmit_resumed response w)) = loadingText (ui w).
Proof.
  unfold handleSubmit_resumed.
  by destruct (Response.result response) as [entries|].
Qed.

Lemma stuck_at_first_step e w : stuck_at_first w → stuck_at_first (step Call e w).
Proof.
  intros [Htext Hnone]. destruct e; cbn [step]; try (split; assumption).
  - destruct (button_disabled (render (ui w)));
      [split; assumption | split; [reflexivity | exact Hnone]].
  - split; [reflexivity | exact Hnone].
  - case_bool_decide; [|split; assumption].
    split; [by rewrite handleSubmit_resumed_text | by rewrite handleSubmit_resumed_timers].
  - case_bool_decide; split; assumption.
  - rewrite Hnone. split; assumption.
Qed.

Lemma stuck_at_first_run trace w :
  stuck_at_first w → stuck_at_first (run Call trace w).
Proof.
  revert w. induction trace as [|e trace IH]; intros w Hw; [exact Hw|].
  apply (IH (step Call e w)). by apply stuck_at_first_step.
Qed.

(** C6: the rotation is meant to walk through the four messages, one step
    every 800ms, and to stop at the last.  The source does not get past the
    first: whatever happens, the text is the first message, no timer is
    pending, and the only index a Loading state ever carries is 0. *)
Theorem rotation_stops_at_first_message (trace : list Event) :
  let w := run Call trace boot in
  messages !! 0%nat = Some (loadingText (ui w)) ∧
  timers w = [] ∧
  step Call Elapse w = w ∧
  (∀ i, published (ui w) = Loading i → i = 0%nat) ∧
  rotateLoadingMessages Call w
  = unhandled "TypeError: Promise constructor cannot be invoked without 'new'" w.
Proof.
  intros w.
  destruct (stuck_at_first_run trace boot) as [Htext Hnone]; [by split|].
  fold w in Htext, Hnone.
  split; [by rewrite Htext|]. split; [exact Hnone|].
  split; [cbn [step]; by rewrite Hnone|]. split.
  - unfold published, variant, render; cbn [loading_panel result_panel].
    rewrite Htext. destruct (loading (ui w)); [intros i [= <-]; reflexivity|].
    destruct (result (ui w)); discriminate.
  - unfold rotateLoadingMessages. cbn. unfold update, unhandled. cbn.
    destruct w as [[] ? ? ? ? ?]. cbn in *. by rewrite Htext.
Qed.


(** The loop as it reads with [new Promise(...)]: from a world without
    timers it shows the four messages in order, with one timer of 800ms
    between consecutive ones, and after the fourth it ends; it does not
    start over. *)
Remark rotation_with_new (w : World) :
  timers w = [] →
  let w0 := rotateLoadingMessages New w in
  let w1 := step New Elapse w0 in
  let w2 := step New Elapse w1 in
  let w3 := step New Elapse w2 in
  let w4 := step New Elapse w3 in
  (λ w, loadingText (ui w)) <$> [w0; w1; w2; w3] = messages ∧
  (λ w, delay <$> timers w) <$> [w0; w1; w2; w3] = [[800]; [800]; [800]; [800]]%Z ∧
  loadingText (ui w4) = "Checking for Over-Engineering..." ∧
  timers w4 = [] ∧
  step New Elapse w4 = w4.
Proof.
  intros Hnone. destruct w as [s ts out aw rj con]. cbn in Hnone. subst ts.
  by repeat split.
Qed.

(** * The score colour *)

(** C7: for every integer score, [getScoreColor] answers the success
    colour when [score >= 7], the warning colour when [5 <= score < 7] and
    the danger colour when [score < 5]; at 9 and 7 it is success, at 6 and
    5 warning, at 3 danger. *)
Theorem getScoreColor_bands (score : Z) :
  ((score >= 7)%Z → getScoreColor score = success_color) ∧
  ((5 <= score < 7)%Z → getScoreColor score = warning_color) ∧
  ((score < 5)%Z → getScoreColor score = danger_color) ∧
  getScoreColor 9 = success_color ∧
  getScoreColor 7 = success_color ∧
  getScoreColor 6 = warning_color ∧
  getScoreColor 5 = warning_color ∧
  getScoreColor 3 = danger_color.
Proof.
  unfold getScoreColor, success_color, warning_color, danger_color.
  repeat split; try reflexivity; intros H.
  - destruct (Z.geb_spec score 7); [reflexivity | lia].
  - destruct (Z.geb_spec score 7); [lia |].
    destruct (Z.geb_spec score 5); [reflexivity | lia].
  - destruct (Z.geb_spec score 7); [lia |].
    destruct (Z.geb_spec score 5); [lia | reflexivity].
Qed.

Lemma getScoreColor_bands_witness :
  getScoreColor 8 = success_color ∧
  getScoreColor 5 = warning_color ∧
  getScoreColor 0 = danger_color.
Proof.
  destruct (getScoreColor_bands 8) as (H8 & _).
  destruct (getScoreColor_bands 5) as (_ & H5 & _).
  destruct (getScoreColor_bands 0) as (_ & _ & H0 & _).
  split; [apply H8; lia|]. split; [apply H5; lia | apply H0; lia].
Defined.

(** * Beyond the claims: invariants of every run *)

Lemma shows_a_message_rotate how msgs w :
  msgs ⊆ messages → shows_a_message w → shows_a_message (rotate how msgs w).
Proof.
  intros Hsub [Htext Htimers].
  destruct msgs as [|msg rest]; [by split|].
  assert (msg ∈ messages) as Hmsg by (apply Hsub; left).
  assert (rest ⊆ messages) as Hrest by (intros m Hm; apply Hsub; by right).
  destruct how; (split; [exact Hmsg|]); cbn; [exact Htimers|].
  intros t Ht. apply elem_of_app in Ht as [Ht | Ht]; [by apply Htimers|].
  apply list_elem_of_singleton in Ht as ->. by split.
Qed.

Lemma shows_a_message_step how e w :
  shows_a_message w → shows_a_message (step how e w).
Proof.
  intros Hw.
  assert (shows_a_message (handleSubmit how w)) as Hsubmit.
  { destruct (shows_a_message_rotate how messages
                (update (setResult None) (update (setLoading true) w))) as [Ht Hts];
      [done | exact Hw |].
    split; [exact Ht | exact Hts]. }
  destruct e; cbn [step]; try exact Hw; try exact Hsubmit.
  - by destruct (button_disabled (render (ui w))).
  - case_bool_decide; [|exact Hw]. destruct Hw as [Ht Hts].
    split; [by rewrite handleSubmit_resumed_text | by rewrite handleSubmit_resumed_timers].
  - by case_bool_decide.
  - destruct (timers w) as [|t pending] eqn:E; [exact Hw|].
    destruct Hw as [Ht Hts]. rewrite E in Hts.
    apply shows_a_message_rotate.
    + apply (Hts t). left.
    + split; [exact Ht|]. intros t' Ht'. apply Hts. by right.
Qed.

Lemma shows_a_message_run how trace w :
  shows_a_message w → shows_a_message (run how trace w).
Proof.
  revert w. induction trace as [|e trace IH]; intros w Hw; [exact Hw|].
  apply (IH (step how e w)). by apply shows_a_message_step.
Qed.

(** X1: in every run, however [Promise] is applied, the loading text is
    one of the four messages, every pending timer has a delay of 800 and
    only messages left to show, and the index a Loading state carries is at
    most 3. *)
Theorem loading_text_is_always_a_message (how : Application) (trace : list Event) :
  let w := run how trace boot in
  loadingText (ui w) ∈ messages ∧
  (∀ t, t ∈ timers w → delay t = 800%Z ∧ rest t ⊆ messages) ∧
  (∀ i, published (ui w) = Loading i → (i ≤ 3)%nat).
Proof.
  intros w.
  destruct (shows_a_message_run how trace boot) as [Htext Htimers].
  { split; [left|]. intros t Ht. by apply elem_of_nil in Ht. }
  fold w in Htext, Htimers. split; [exact Htext|]. split; [exact Htimers|].
  intros i. unfold published, variant, render; cbn [loading_panel result_panel].
  destruct (loading (ui w)).
  - intros [= <-]. unfold messages in Htext.
    repeat (apply elem_of_cons in Htext as [-> | Htext]; [vm_compute; lia|]).
    by apply elem_of_nil in Htext.
  - destruct (result (ui w)); discriminate.
Qed.




(** * Beyond the claims: the cycle through the button *)

Lemma blocked_step how e w :
  through_ui e = true → blocked w →
  blocked (step how e w) ∧ outbox (step how e w) = outbox w.
Proof.
  intros Hui (Hl & Hr & Hnone). destruct e; try discriminate Hui; cbn [step];
    try (by repeat split).
  - unfold render; cbn [button_disabled]. rewrite Hl. by repeat split.
  - rewrite Hnone. rewrite bool_decide_eq_false_2 by apply not_elem_of_nil.
    by repeat split.
  - rewrite Hnone. rewrite bool_decide_eq_false_2 by apply not_elem_of_nil.
    by repeat split.
  - destruct (timers w) as [|t pending]; [by repeat split|].
    rewrite rotate_outbox. split; [|reflexivity].
    split; [by rewrite rotate_loading|]. split; [by rewrite rotate_result|].
    by rewrite rotate_awaiting.
Qed.

Lemma blocked_run how trace w :
  forallb through_ui trace = true → blocked w →
  blocked (run how trace w) ∧ outbox (run how trace w) = outbox w.
Proof.
  revert w. induction trace as [|e trace IH]; intros w Hui Hw; [by split|].
  simpl in Hui. apply andb_prop in Hui as [He Htrace].
  destruct (blocked_step how e w He Hw) as [Hstep Hout].
  destruct (IH (step how e w) Htrace Hstep) as [Hrun Hout'].
  split; [exact Hrun|]. simpl. by rewrite Hout', Hout.
Qed.

(** X5: once the request of a submission made through the button has been
    rejected, the form is blocked: whatever the user does next through the
    page, loading stays true, the button stays disabled and reads
    "Consulting...", no result is shown and no further request is sent. *)
Theorem failed_request_blocks_the_form
    (how : Application) (trace later : list Event) (id : nat) (cause : Error) :
  forallb through_ui trace = true →
  id ∈ awaiting (run how trace boot) →
  forallb through_ui later = true →
  let failed := step how (Reject id cause) (run how trace boot) in
  let w := run how later failed in
  loading (ui w) = true ∧
  button_disabled (render (ui w)) = true ∧
  button_label (render (ui w)) = "Consulting..." ∧
  result_panel (render (ui w)) = None ∧
  outbox w = outbox failed.
Proof.
  intros Hui Hin Hlater failed w.
  destruct (single_flight_run how trace boot Hui single_flight_boot) as [Hlen H].
  destruct (H id Hin) as (Hl & Hr & _).
  assert (blocked failed) as Hfailed.
  { subst failed. cbn [step]. rewrite bool_decide_eq_true_2 by exact Hin.
    repeat split; [exact Hl | exact Hr |].
    apply single_flight_settled; [by split | exact Hin]. }
  destruct (blocked_run how later failed Hlater Hfailed) as [(Hl' & Hr' & _) Hout].
  fold w in Hl', Hr', Hout.
  unfold render; cbn [button_disabled button_label result_panel].
  rewrite Hl', Hr'. by repeat split.
Qed.

Lemma failed_request_blocks_the_form_witness :
  let w := run Call (fill_form ++ [Click; Reject 0 "timeout";
                                   ChangeTechIdea "Add a message queue"; Click]) boot in
  loading (ui w) = true ∧ length (outbox w) = 1%nat.
Proof.
  cbv zeta.
  pose proof (failed_request_blocks_the_form Call (fill_form ++ [Click])
                [ChangeTechIdea "Add a message queue"; Click] 0 "timeout"
                eq_refl ltac:(vm_compute; left) eq_refl) as H.
  cbv zeta in H. destruct H as (Hl & _ & _ & _ & Hout).
  split; [exact Hl|]. change (length (outbox (run Call [ChangeTechIdea "Add a message queue"; Click]
    (step Call (Reject 0 "timeout") (run Call (fill_form ++ [Click]) boot)))) = 1%nat).
  rewrite Hout. reflexivity.
Defined.

Lemma result_stays_null_step how e w :
  result (ui w) = None → result (ui (step how e w)) = None.
Proof.
  intros Hw. destruct e; cbn [step]; try exact Hw.
  - destruct (button_disabled (render (ui w))); [exact Hw | apply handleSubmit_ui].
  - apply handleSubmit_ui.
  - case_bool_decide; [|exact Hw]. by rewrite handleSubmit_resumed_result.
  - by case_bool_decide.
  - destruct (timers w); [exact Hw|]. by rewrite rotate_result.
Qed.

Lemma result_stays_null_run how trace w :
  result (ui w) = None → result (ui (run how trace w)) = None.
Proof.
  revert w. induction trace as [|e trace IH]; intros w Hw; [exact Hw|].
  apply (IH (step how e w)). by apply result_stays_null_step.
Qed.

(** X6: no response ever becomes the result.  The only [setResult] with an
    entry stands behind the call of [len], which raises for every array, so
    in every run the result cell is null, the result panel is not part of
    the tree and the view is never Succeeded; a response with at least one
    entry leaves every cell as it was. *)
Theorem result_is_never_set (how : Application) (trace : list Event) :
  let w := run how trace boot in
  result (ui w) = None ∧
  result_panel (render (ui w)) = None ∧
  (∀ r, published (ui w) ≠ Succeeded r) ∧
  ∀ id first others,
    ui (step how (Resolve id (Response.mk (Some (first :: others)))) w) = ui w.
Proof.
  intros w.
  assert (result (ui w) = None) as Hnone by (by apply result_stays_null_run).
  split; [exact Hnone|]. split; [|split].
  - unfold render; cbn [result_panel]. by rewrite Hnone.
  - intros r. by apply published_not_Succeeded.
  - intros id first others. cbn [step]. by case_bool_decide.
Qed.

(** X7: a second click changes nothing: after a click the button is
    disabled, either because it was already or because the click has set
    loading, so clicking twice sends what clicking once sends. *)
Theorem double_click_sends_once (how : Application) (w : World) :
  step how Click (step how Click w) = step how Click w.
Proof.
  cbn [step]. destruct (button_disabled (render (ui w))) eqn:Hb; [by rewrite Hb|].
  assert (button_disabled (render (ui (handleSubmit how w))) = true) as ->; [|done].
  unfold render; cbn [button_disabled].
  by destruct (handleSubmit_ui how w) as (-> & _).
Qed.

(** X8: only the four [onChange] handlers write the cells of the form: a
    run without edits, with any submissions, settlements and timers,
    leaves role, stack, techIdea and latencyReq as they were. *)
Theorem only_edits_change_the_form (how : Application) (trace : list Event) (w : World) :
  forallb (λ e, negb (edits e)) trace = true →
  inputs (ui (run how trace w)) = inputs (ui w).
Proof.
  revert w. induction trace as [|e trace IH]; intros w Hquiet; [done|].
  simpl in Hquiet. apply andb_prop in Hquiet as [He Htrace].
  simpl. rewrite (IH (step how e w) Htrace).
  assert (inputs (ui (handleSubmit how w)) = inputs (ui w)) as Hsubmit
    by (destruct how; reflexivity).
  destruct e; try discriminate He; cbn [step]; try exact Hsubmit.
  - by destruct (button_disabled (render (ui w))).
  - case_bool_decide; [|done]. unfold handleSubmit_resumed.
    by destruct (Response.result response) as [entries|].
  - by case_bool_decide.
  - destruct (timers w) as [|t pending]; [done|].
    destruct (rest t); [done|]. by destruct how.
Qed.

Lemma only_edits_change_the_form_witness :
  inputs (ui (run Call [Click; Resolve 0 (Response.mk (Some [overkill])); Elapse]
                (run Call fill_form boot)))
  = ("Solo Founder", "Node, Postgres",
     "Add a Kubernetes cluster for a single cron job", "Real-time (<200ms)").
Proof.
  rewrite (only_edits_change_the_form Call
             [Click; Resolve 0 (Response.mk (Some [overkill])); Elapse]
             (run Call fill_form boot) eq_refl).
  reflexivity.
Defined.

(** * Beyond the claims: what the tree shows *)

(** X9: whatever the score, the style expressions of the result panel
    give the danger colour below 5 and grey from 5 on for the panel; the
    verdict never gets the colour of the panel it is written on, and the
    score is never white, the colour of its badge. *)
Theorem result_panel_colours (r : Assessment) :
  ((score r < 5)%Z → panel_background r = danger_color ∧ verdict_color r = "white") ∧
  ((5 <= score r)%Z → panel_background r = "#F3F4F6" ∧ verdict_color r = score_color r ∧
                      score_color r ≠ danger_color) ∧
  verdict_color r ≠ panel_background r ∧
  score_color r ≠ "white".
Proof.
  unfold panel_background, verdict_color, score_color, getScoreColor, danger_color.
  split; [|split; [|split]].
  - intros H. rewrite (proj2 (Z.ltb_lt _ _) H).
    destruct (Z.geb_spec (score r) 7); [lia|].
    destruct (Z.geb_spec (score r) 5); [lia|]. by split.
  - intros H. rewrite (proj2 (Z.ltb_ge _ _) H).
    destruct (Z.geb_spec (score r) 7); [by repeat split|].
    destruct (Z.geb_spec (score r) 5); [by repeat split | lia].
  - destruct (Z.ltb_spec (score r) 5);
      destruct (Z.geb_spec (score r) 7); destruct (Z.geb_spec (score r) 5);
      discriminate || lia.
  - destruct (Z.geb_spec (score r) 7); destruct (Z.geb_spec (score r) 5); discriminate.
Qed.

Lemma result_panel_colours_witness :
  panel_background overkill = danger_color ∧ verdict_color overkill = "white".
Proof.
  refine (proj1 (result_panel_colours overkill) _). vm_compute. reflexivity.
Defined.

(** X10: the button looks as it behaves: it is grey with the not-allowed
    cursor exactly when it is disabled, it reads "Consulting..." exactly
    when the loading panel is on screen, and then it is disabled. *)
Theorem button_looks_as_it_behaves (s : AppState) :
  (button_background (button_style s) = "#9CA3AF" ↔ button_disabled (render s) = true) ∧
  (button_cursor (button_style s) = "not-allowed" ↔ button_disabled (render s) = true) ∧
  (button_label (render s) = "Consulting..." ↔ is_Some (loading_panel (render s))) ∧
  (button_label (render s) = "Consulting..." → button_disabled (render s) = true).
Proof.
  unfold button_style, render;
    cbn [button_background button_cursor button_disabled button_label loading_panel].
  destruct (loading s); cbn [orb];
    [|destruct (not_string (stack s) || not_string (techIdea s))];
    repeat split; try done; try discriminate; intros H; by destruct H.
Qed.

(** * Beyond the claims: what reaches the service, and what stays unhandled *)

Lemma enumerated_handleSubmit how w : enumerated w → enumerated (handleSubmit how w).
Proof.
  intros (Hr & Hl & Hsent).
  assert (outbox (handleSubmit how w) = outbox w ++ [mkRequest "FeasibilityConsultant" ""
            (<["role" := role (ui w)]>
               (<["stack" := stack (ui w)]>
                  (<["tech_idea" := techIdea (ui w)]>
                     (<["latency_req" := latencyReq (ui w)]> ∅))))]) as Hout
    by (destruct how; reflexivity).
  split; [by destruct how|]. split; [by destruct how|].
  intros request Hin. rewrite Hout in Hin.
  apply elem_of_app in Hin as [Hin | Hin]; [by apply Hsent|].
  apply list_elem_of_singleton in Hin as ->.
  exists (role (ui w)), (latencyReq (ui w)). cbn [fields].
  split; [by simplify_map_eq|]. split; [exact Hr|]. split; [by simplify_map_eq | exact Hl].
Qed.

Lemma enumerated_step how e w :
  from_selects e = true → enumerated w → enumerated (step how e w).
Proof.
  intros He Hw. pose proof Hw as (Hr & Hl & Hsent).
  destruct e; cbn [step]; cbn [from_selects] in He; try exact Hw.
  - apply bool_decide_eq_true_1 in He. by repeat split.
  - apply bool_decide_eq_true_1 in He. by repeat split.
  - destruct (button_disabled (render (ui w))); [exact Hw|].
    by apply enumerated_handleSubmit.
  - by apply enumerated_handleSubmit.
  - case_bool_decide; [|exact Hw]. unfold handleSubmit_resumed.
    destruct (Response.result response) as [entries|]; exact Hw.
  - case_bool_decide; exact Hw.
  - destruct (timers w) as [|t pending]; [exact Hw|].
    destruct (rest t); [exact Hw|]. destruct how; exact Hw.
Qed.

Lemma enumerated_run how trace w :
  forallb from_selects trace = true → enumerated w → enumerated (run how trace w).
Proof.
  revert w. induction trace as [|e trace IH]; intros w Hsel Hw; [exact Hw|].
  simpl in Hsel. apply andb_prop in Hsel as [He Htrace].
  apply (IH (step how e w) Htrace). by apply enumerated_step.
Qed.

(** X11: as long as the two selects hand over values of their own options,
    role and latencyReq are always one of the four options of their select,
    starting from the first, and so are the role and latency_req fields of
    every request sent. *)
Theorem selects_keep_enumerated_values (how : Application) (trace : list Event) :
  forallb from_selects trace = true →
  let w := run how trace boot in
  role (ui w) ∈ role_options ∧
  latencyReq (ui w) ∈ latency_options ∧
  role_options !! 0%nat = Some (role (ui boot)) ∧
  latency_options !! 0%nat = Some (latencyReq (ui boot)) ∧
  ∀ request, request ∈ outbox w →
    ∃ r l, fields request !! "role" = Some r ∧ r ∈ role_options ∧
           fields request !! "latency_req" = Some l ∧ l ∈ latency_options.
Proof.
  intros Hsel w.
  destruct (enumerated_run how trace boot Hsel) as (Hr & Hl & Hsent).
  { split; [left|]. split; [left|]. intros request H. by apply elem_of_nil in H. }
  by repeat split.
Qed.

Lemma selects_keep_enumerated_values_witness :
  role (ui (run Call (ChangeRole "Senior Engineer" :: fill_form ++ [Click]) boot))
  ∈ role_options.
Proof.
  pose proof (selects_keep_enumerated_values Call
                (ChangeRole "Senior Engineer" :: fill_form ++ [Click])
                ltac:(vm_compute; reflexivity)) as H.
  cbv zeta in H. apply H.
Defined.

Lemma handleSubmit_outbox_length how w :
  length (outbox (handleSubmit how w)) = S (length (outbox w)).
Proof. destruct how; cbn; rewrite length_app; simpl; lia. Qed.

Lemma rejections_step e w :
  (length (outbox w) ≤ length (filter (λ c, c = TypeError_without_new) (rejections w)))%nat →
  (length (outbox (step Call e w))
   ≤ length (filter (λ c, c = TypeError_without_new) (rejections (step Call e w))))%nat.
Proof.
  intros Hw.
  assert (length (outbox (handleSubmit Call w))
          ≤ length (filter (λ c, c = TypeError_without_new)
                      (rejections (handleSubmit Call w))))%nat as Hsubmit.
  { change (rejections (handleSubmit Call w)) with (TypeError_without_new :: rejections w).
    rewrite handleSubmit_outbox_length, filter_cons_True by reflexivity. simpl. lia. }
  destruct e; cbn [step]; try exact Hw; try exact Hsubmit.
  - by destruct (button_disabled (render (ui w))).
  - case_bool_decide; [|exact Hw]. unfold handleSubmit_resumed.
    destruct (Response.result response) as [entries|]; [|exact Hw].
    change (length (outbox w)
            ≤ length (filter (λ c, c = TypeError_without_new)
                        (ReferenceError_len :: rejections w)))%nat.
    by rewrite filter_cons_False.
  - case_bool_decide; [|exact Hw].
    change (length (outbox w)
            ≤ length (filter (λ c, c = TypeError_without_new) (cause :: rejections w)))%nat.
    destruct (decide (cause = TypeError_without_new)) as [-> | Hne].
    + rewrite filter_cons_True by reflexivity. simpl. lia.
    + by rewrite filter_cons_False.
  - destruct (timers w) as [|t pending]; [exact Hw|].
    destruct (rest t) as [|msg msgs]; [exact Hw|].
    change (length (outbox w)
            ≤ length (filter (λ c, c = TypeError_without_new)
                        (TypeError_without_new :: rejections w)))%nat.
    rewrite filter_cons_True by reflexivity. simpl. lia.
Qed.

(** X12: as the source applies [Promise], every submission leaves behind
    the rejection of the promise of its rotation: in every run there are at
    least as many unhandled TypeErrors of the [Promise] call as requests
    sent, and a submission that sends a request adds one. *)
Theorem every_submission_leaves_a_rejection (trace : list Event) :
  let w := run Call trace boot in
  (length (outbox w)
   ≤ length (filter (λ c, c = TypeError_without_new) (rejections w)))%nat ∧
  rejections (handleSubmit Call w) = TypeError_without_new :: rejections w.
Proof.
  intros w. split; [|reflexivity]. subst w.
  assert (∀ w0,
    (length (outbox w0)
     ≤ length (filter (λ c, c = TypeError_without_new) (rejections w0)))%nat →
    (length (outbox (run Call trace w0))
     ≤ length (filter (λ c, c = TypeError_without_new)
                 (rejections (run Call trace w0))))%nat) as Hrun.
  { induction trace as [|e trace IH]; intros w0 Hw0; [exact Hw0|].
    apply (IH (step Call e w0)). by apply rejections_step. }
  apply Hrun. simpl. lia.
Qed.
